(** * PyCO2SYS.solubility: saturation states of calcite and aragonite

    A shallow embedding of [PyCO2SYS/solubility.py] over the real numbers.

    - Python floats are read as real numbers ([R]); the decimal literals of
      the source are kept as they are written.  Rounding, NaN and Inf are
      outside this model: on the physical domain (TempK > 0, Sal > 0) the
      total functions [sqrt], [ln], [Rpower] and [/] of the Standard Library
      coincide with the mathematical functions numpy approximates.
    - A numpy array is a [list]; an arithmetic expression over arrays of equal
      length is elementwise, so every formula is written once on scalars and
      lifted with [map] / [map3]; [where] is the elementwise select.
    - [constants.RGasConstant] is not part of the sources at hand: it is a
      parameter of the development.
    - The [convert] module is not part of the sources at hand either: its three
      functions are modelled from the specification.
    - Where a property depends on rounding or on nan, the lines concerned are
      written a second time on binary64 floats ([Binary64]). *)

From Stdlib Require Import Reals Lra List ZArith Bool.
From Stdlib Require PrimFloat.
Import ListNotations.

Open Scope R_scope.

(** ** numpy primitives *)

Module np.

(** [log10(x)] *)
Definition log10 (x : R) : R := ln x / ln 10.

(** [x ** y] with a float exponent *)
Definition power (x y : R) : R := Rpower x y.

(** Elementwise application of a ternary function to three arrays. *)
Fixpoint map3 {A B C D : Type} (f : A -> B -> C -> D)
  (a : list A) (b : list B) (c : list C) : list D :=
  match a, b, c with
  | x :: a', y :: b', z :: c' => f x y z :: map3 f a' b' c'
  | _, _, _ => []
  end.

(** [where(F, x, y)]: per element, [x] where the mask holds and [y] elsewhere. *)
Definition where_ (F : list bool) (x y : list R) : list R :=
  map3 (fun (b : bool) (u v : R) => if b then u else v) F x y.

End np.

Notation "x ** y" := (np.power x y) (at level 30, right associativity) : R_scope.

(** ** Unit conversions *)

Module convert.

(** Modelled from the spec: [convert.TempC2K], absent from the sources;
    "TempC2K(TempC) = TempC + 273.15". *)
Definition TempC2K (TempC : R) : R := TempC + 273.15.

(** Modelled from the spec: [convert.TempK2C], absent from the sources;
    the inverse of [TempC2K]. *)
Definition TempK2C (TempK : R) : R := TempK - 273.15.

(** Modelled from the spec: [convert.Pdbar2bar], absent from the sources;
    "Pdbar2bar(Pdbar) = Pdbar / 10". *)
Definition Pdbar2bar (Pdbar : R) : R := Pdbar / 10.

End convert.

(** ** Solubility constants (one sample) *)

Section Solubility.

(** [constants.RGasConstant] *)
Variable RGasConstant : R.

(** Delta and kappa terms for calcite solubility [I75]. *)
Definition _deltaKappaCalcite_I75 (TempC : R) : R * R :=
  let deltaVKCa := -48.76 + 0.5304 * TempC in
  let KappaKCa := (-11.76 + 0.3692 * TempC) / 1000 in
  (deltaVKCa, KappaKCa).

(** The local [logKCa] of [k_calcite_M83] after its last assignment. *)
Definition k_calcite_M83_logKCa (TempK Sal : R) : R :=
  let logKCa := -171.9065 - 0.077993 * TempK + 2839.319 / TempK in
  let logKCa := logKCa + 71.595 * np.log10 TempK in
  let logKCa := logKCa + (-0.77712 + 0.0028426 * TempK + 178.34 / TempK) * sqrt Sal in
  let logKCa := logKCa - 0.07711 * Sal + 0.0041249 * sqrt Sal * Sal in
  logKCa.

(** The local [lnKCafac] of [k_calcite_M83]. *)
Definition k_calcite_M83_lnKCafac (TempK Pbar : R) : R :=
  let TempC := convert.TempK2C TempK in
  let '(deltaVKCa, KappaKCa) := _deltaKappaCalcite_I75 TempC in
  (-deltaVKCa + 0.5 * KappaKCa * Pbar) * Pbar / (RGasConstant * TempK).

(** Calcite solubility following M83. *)
Definition k_calcite_M83 (TempK Sal Pbar : R) : R :=
  let logKCa := k_calcite_M83_logKCa TempK Sal in
  let KCa := 10.0 ** logKCa in
  let lnKCafac := k_calcite_M83_lnKCafac TempK Pbar in
  let KCa := KCa * exp lnKCafac in
  KCa.

(** The local [logKAr] of [k_aragonite_M83] after its last assignment. *)
Definition k_aragonite_M83_logKAr (TempK Sal : R) : R :=
  let logKAr := -171.945 - 0.077993 * TempK + 2903.293 / TempK in
  let logKAr := logKAr + 71.595 * np.log10 TempK in
  let logKAr := logKAr + (-0.068393 + 0.0017276 * TempK + 88.135 / TempK) * sqrt Sal in
  let logKAr := logKAr - 0.10018 * Sal + 0.0059415 * sqrt Sal * Sal in
  logKAr.

(** The local [lnKArfac] of [k_aragonite_M83]. *)
Definition k_aragonite_M83_lnKArfac (TempK Pbar : R) : R :=
  let TempC := convert.TempK2C TempK in
  let '(deltaVKCa, KappaKCa) := _deltaKappaCalcite_I75 TempC in
  let deltaVKAr := deltaVKCa + 2.8 in
  let KappaKAr := KappaKCa in
  (-deltaVKAr + 0.5 * KappaKAr * Pbar) * Pbar / (RGasConstant * TempK).

(** Aragonite solubility following M83 with pressure correction of I75. *)
Definition k_aragonite_M83 (TempK Sal Pbar : R) : R :=
  let logKAr := k_aragonite_M83_logKAr TempK Sal in
  let KAr := 10.0 ** logKAr in
  let lnKArfac := k_aragonite_M83_lnKArfac TempK Pbar in
  let KAr := KAr * exp lnKArfac in
  KAr.

(** The local [KCa] of [k_calcite_I75] at its first assignment: the fit. *)
Definition k_calcite_I75_fit (TempK Sal : R) : R :=
  0.0000001 * (
    -34.452
    - 39.866 * Sal ** (1 / 3)
    + 110.21 * np.log10 Sal
    - 0.0000075752 * TempK ^ 2
  ).

(** Calcite solubility following ICHP73, for use with GEOSECS constants. *)
Definition k_calcite_I75 (TempK Sal Pbar : R) : R :=
  let KCa := k_calcite_I75_fit TempK Sal in
  let TempC := convert.TempK2C TempK in
  let KCa := KCa * exp ((36 - 0.2 * TempC) * Pbar / (RGasConstant * TempK)) in
  KCa.

(** Aragonite solubility, for use with GEOSECS constants. *)
Definition k_aragonite_GEOSECS (TempK Sal Pbar : R) : R :=
  let KCa := k_calcite_I75 TempK Sal Pbar in
  let KAr := 1.45 * KCa in
  let TempC := convert.TempK2C TempK in
  let KAr := KAr * exp ((33.3 - 0.22 * TempC) * Pbar / (RGasConstant * TempK)) in
  KAr.

(** ** Saturation states (arrays of samples) *)

(** The mask [F = (WhichKs == 6) | (WhichKs == 7)], one sample. *)
Definition GEOSECS (WhichKs : Z) : bool :=
  (WhichKs =? 6)%Z || (WhichKs =? 7)%Z.

(** The local [KCa] of [calcite]: the stoichiometric solubility constant. *)
Definition calcite_KCa (TempK Sal Pbar : list R) (WhichKs : list Z) : list R :=
  let F := map GEOSECS WhichKs in
  np.where_ F (np.map3 k_calcite_I75 TempK Sal Pbar)
              (np.map3 k_calcite_M83 TempK Sal Pbar).

(** Calculate calcite solubility. *)
Definition calcite (Sal TempK Pbar CARB TCa : list R) (WhichKs : list Z)
  (K1 K2 : list R) : list R :=
  let KCa := calcite_KCa TempK Sal Pbar WhichKs in
  let OmegaCa := np.map3 (fun c t k : R => c * t / k) CARB TCa KCa in
  OmegaCa.

(** The local [KAr] of [aragonite]. *)
Definition aragonite_KAr (TempK Sal Pbar : list R) (WhichKs : list Z) : list R :=
  let F := map GEOSECS WhichKs in
  np.where_
    F (np.map3 k_aragonite_GEOSECS TempK Sal Pbar)
      (np.map3 k_aragonite_M83 TempK Sal Pbar).

(** Calculate aragonite solubility. *)
Definition aragonite (Sal TempK Pbar CARB TCa : list R) (WhichKs : list Z)
  (K1 K2 : list R) : list R :=
  let KAr := aragonite_KAr TempK Sal Pbar WhichKs in
  let OmegaAr := np.map3 (fun c t k : R => c * t / k) CARB TCa KAr in
  OmegaAr.

(** Calculate calcite and aragonite solubility. *)
Definition CaCO3 (Sal TempC Pdbar CARB TCa : list R) (WhichKs : list Z)
  (K1 K2 : list R) : list R * list R :=
  let TempK := map convert.TempC2K TempC in
  let Pbar := map convert.Pdbar2bar Pdbar in
  let OmegaCa := calcite Sal TempK Pbar CARB TCa WhichKs K1 K2 in
  let OmegaAr := aragonite Sal TempK Pbar CARB TCa WhichKs K1 K2 in
  (OmegaCa, OmegaAr).

End Solubility.

(** ** The same formulas on IEEE 754 binary64

    Where the real-number reading above and the doubles of the source part,
    the doubles decide.  This module writes the lines of the source that
    consist of [+], [-], [*] and [/] on primitive binary64 floats, which
    round as numpy's do.  The elementary functions of the C library are
    taken only where IEEE 754 and C99 Annex F fix their result; elsewhere
    they answer [None] and the module is silent. *)

Module Binary64.

Import PrimFloat.
#[local] Open Scope float_scope.
#[local] Set Warnings "-inexact-float".

(** [exp(x)]: [exp(nan)] is nan and [exp(+-0)] is 1. *)
Definition exp (x : float) : option float :=
  if is_nan x then Some nan else if x =? 0 then Some 1 else None.

(** [log10(x)]: [log10(1)] is 0. *)
Definition log10 (x : float) : option float :=
  if x =? 1 then Some 0 else None.

(** [x ** y]: [pow(1, y)] is 1 for every [y]. *)
Definition power (x y : float) : option float :=
  if x =? 1 then Some 1 else None.

(** Modelled from the spec: [convert.TempK2C], absent from the sources;
    the inverse of "TempC2K(TempC) = TempC + 273.15". *)
Definition TempK2C (TempK : float) : float := TempK - 273.15.

(** Delta and kappa terms for calcite solubility [I75]. *)
Definition _deltaKappaCalcite_I75 (TempC : float) : float * float :=
  let deltaVKCa := -48.76 + 0.5304 * TempC in
  let KappaKCa := (-11.76 + 0.3692 * TempC) / 1000 in
  (deltaVKCa, KappaKCa).

(** The local [lnKCafac] of [k_calcite_M83]. *)
Definition k_calcite_M83_lnKCafac (RGasConstant TempK Pbar : float) : float :=
  let TempC := TempK2C TempK in
  let '(deltaVKCa, KappaKCa) := _deltaKappaCalcite_I75 TempC in
  (-deltaVKCa + 0.5 * KappaKCa * Pbar) * Pbar / (RGasConstant * TempK).

(** Calcite solubility following ICHP73, for use with GEOSECS constants.
    [TempK ** 2] is the product [TempK * TempK]. *)
Definition k_calcite_I75 (RGasConstant TempK Sal Pbar : float)
  : option float :=
  match power Sal (1 / 3), log10 Sal with
  | Some Sal_cbrt, Some log10_Sal =>
      let KCa := 0.0000001 * (
        -34.452
        - 39.866 * Sal_cbrt
        + 110.21 * log10_Sal
        - 0.0000075752 * (TempK * TempK)
      ) in
      let TempC := TempK2C TempK in
      match exp ((36 - 0.2 * TempC) * Pbar / (RGasConstant * TempK)) with
      | Some e => Some (KCa * e)
      | None => None
      end
  | _, _ => None
  end.

(** Aragonite solubility, for use with GEOSECS constants. *)
Definition k_aragonite_GEOSECS (RGasConstant TempK Sal Pbar : float)
  : option float :=
  match k_calcite_I75 RGasConstant TempK Sal Pbar with
  | Some KCa =>
      let KAr := 1.45 * KCa in
      let TempC := TempK2C TempK in
      match exp ((33.3 - 0.22 * TempC) * Pbar / (RGasConstant * TempK)) with
      | Some e => Some (KAr * e)
      | None => None
      end
  | None => None
  end.


End Binary64.

(** ** Elementwise lifting: what an array expression holds at one index *)

Lemma nth_error_map3 {A B C D : Type} (f : A -> B -> C -> D)
  (a : list A) (b : list B) (c : list C) (i : nat) (x : A) (y : B) (z : C) :
  nth_error a i = Some x -> nth_error b i = Some y -> nth_error c i = Some z ->
  nth_error (np.map3 f a b c) i = Some (f x y z).
Proof.
  revert b c i.
  induction a as [|x0 a IH]; intros [|y0 b] [|z0 c] [|i]; simpl;
    try discriminate.
  - intros Hx Hy Hz. inversion Hx; inversion Hy; inversion Hz. reflexivity.
  - apply IH.
Qed.

Lemma nth_error_where (F : list bool) (x y : list R) (i : nat)
  (b : bool) (u v : R) :
  nth_error F i = Some b -> nth_error x i = Some u -> nth_error y i = Some v ->
  nth_error (np.where_ F x y) i = Some (if b then u else v).
Proof.
  unfold np.where_. intros HF Hx Hy.
  apply (nth_error_map3 (fun (b : bool) (u v : R) => if b then u else v));
    assumption.
Qed.

Section SolubilityFacts.

Variable RGasConstant : R.

(** The solubility constant that [calcite] selects for one sample. *)
Lemma calcite_KCa_at (TempK Sal Pbar : list R) (WhichKs : list Z)
  (i : nat) (t s p : R) (w : Z) :
  nth_error TempK i = Some t -> nth_error Sal i = Some s ->
  nth_error Pbar i = Some p -> nth_error WhichKs i = Some w ->
  nth_error (calcite_KCa RGasConstant TempK Sal Pbar WhichKs) i
  = Some (if GEOSECS w then k_calcite_I75 RGasConstant t s p else k_calcite_M83 RGasConstant t s p).
Proof.
  intros Ht Hs Hp Hw. unfold calcite_KCa.
  apply nth_error_where.
  - rewrite nth_error_map, Hw. reflexivity.
  - apply nth_error_map3; assumption.
  - apply nth_error_map3; assumption.
Qed.

(** The solubility constant that [aragonite] selects for one sample. *)
Lemma aragonite_KAr_at (TempK Sal Pbar : list R) (WhichKs : list Z)
  (i : nat) (t s p : R) (w : Z) :
  nth_error TempK i = Some t -> nth_error Sal i = Some s ->
  nth_error Pbar i = Some p -> nth_error WhichKs i = Some w ->
  nth_error (aragonite_KAr RGasConstant TempK Sal Pbar WhichKs) i
  = Some (if GEOSECS w then k_aragonite_GEOSECS RGasConstant t s p else k_aragonite_M83 RGasConstant t s p).
Proof.
  intros Ht Hs Hp Hw. unfold aragonite_KAr.
  apply nth_error_where.
  - rewrite nth_error_map, Hw. reflexivity.
  - apply nth_error_map3; assumption.
  - apply nth_error_map3; assumption.
Qed.

Lemma GEOSECS_true (w : Z) : (w = 6 \/ w = 7)%Z <-> GEOSECS w = true.
Proof.
  unfold GEOSECS. rewrite orb_true_iff, !Z.eqb_eq. tauto.
Qed.

Lemma GEOSECS_false (w : Z) : (w <> 6 /\ w <> 7)%Z <-> GEOSECS w = false.
Proof.
  unfold GEOSECS. rewrite orb_false_iff, !Z.eqb_neq. tauto.
Qed.

(** The saturation state that [calcite] returns for one sample. *)
Lemma calcite_at (Sal TempK Pbar CARB TCa : list R) (WhichKs : list Z)
  (K1 K2 : list R) (i : nat) (t s p c ca : R) (w : Z) :
  nth_error TempK i = Some t -> nth_error Sal i = Some s ->
  nth_error Pbar i = Some p -> nth_error WhichKs i = Some w ->
  nth_error CARB i = Some c -> nth_error TCa i = Some ca ->
  nth_error (calcite RGasConstant Sal TempK Pbar CARB TCa WhichKs K1 K2) i
  = Some (c * ca / (if GEOSECS w then k_calcite_I75 RGasConstant t s p else k_calcite_M83 RGasConstant t s p)).
Proof.
  intros Ht Hs Hp Hw Hc Hca. unfold calcite.
  apply (nth_error_map3 (fun c t k : R => c * t / k)); try assumption.
  apply calcite_KCa_at; assumption.
Qed.

(** The saturation state that [aragonite] returns for one sample. *)
Lemma aragonite_at (Sal TempK Pbar CARB TCa : list R) (WhichKs : list Z)
  (K1 K2 : list R) (i : nat) (t s p c ca : R) (w : Z) :
  nth_error TempK i = Some t -> nth_error Sal i = Some s ->
  nth_error Pbar i = Some p -> nth_error WhichKs i = Some w ->
  nth_error CARB i = Some c -> nth_error TCa i = Some ca ->
  nth_error (aragonite RGasConstant Sal TempK Pbar CARB TCa WhichKs K1 K2) i
  = Some (c * ca / (if GEOSECS w then k_aragonite_GEOSECS RGasConstant t s p else k_aragonite_M83 RGasConstant t s p)).
Proof.
  intros Ht Hs Hp Hw Hc Hca. unfold aragonite.
  apply (nth_error_map3 (fun c t k : R => c * t / k)); try assumption.
  apply aragonite_KAr_at; assumption.
Qed.

End SolubilityFacts.

(** ** Zero pressure: every pressure-correction exponent vanishes *)

(** Every exponent has the shape [a * Pbar / (R * TempK)].  For a non-zero
    divisor this is plain arithmetic; for a zero divisor (TempK = 0, outside
    the physical domain) it is the convention [x / 0 = 0] of the total
    division on [R]. *)
Lemma exponent_Pbar0 (a d : R) : a * 0 / d = 0.
Proof. unfold Rdiv. ring. Qed.

Lemma lnKCafac_Pbar0 (RGasConstant TempK : R) :
  k_calcite_M83_lnKCafac RGasConstant TempK 0 = 0.
Proof.
  unfold k_calcite_M83_lnKCafac, _deltaKappaCalcite_I75. cbv zeta.
  apply exponent_Pbar0.
Qed.

Lemma lnKArfac_Pbar0 (RGasConstant TempK : R) :
  k_aragonite_M83_lnKArfac RGasConstant TempK 0 = 0.
Proof.
  unfold k_aragonite_M83_lnKArfac, _deltaKappaCalcite_I75. cbv zeta.
  apply exponent_Pbar0.
Qed.

Lemma k_calcite_M83_Pbar0 (RGasConstant TempK Sal : R) :
  k_calcite_M83 RGasConstant TempK Sal 0
  = 10.0 ** k_calcite_M83_logKCa TempK Sal.
Proof.
  unfold k_calcite_M83. cbv zeta.
  rewrite lnKCafac_Pbar0, exp_0. ring.
Qed.

Lemma k_aragonite_M83_Pbar0 (RGasConstant TempK Sal : R) :
  k_aragonite_M83 RGasConstant TempK Sal 0
  = 10.0 ** k_aragonite_M83_logKAr TempK Sal.
Proof.
  unfold k_aragonite_M83. cbv zeta.
  rewrite lnKArfac_Pbar0, exp_0. ring.
Qed.

Lemma k_calcite_I75_Pbar0 (RGasConstant TempK Sal : R) :
  k_calcite_I75 RGasConstant TempK Sal 0 = k_calcite_I75_fit TempK Sal.
Proof.
  unfold k_calcite_I75. cbv zeta.
  rewrite exponent_Pbar0, exp_0. ring.
Qed.

Lemma k_aragonite_GEOSECS_Pbar0 (RGasConstant TempK Sal : R) :
  k_aragonite_GEOSECS RGasConstant TempK Sal 0
  = 1.45 * k_calcite_I75 RGasConstant TempK Sal 0.
Proof.
  unfold k_aragonite_GEOSECS. cbv zeta.
  rewrite exponent_Pbar0, exp_0. ring.
Qed.

(** ** The ICHP73 fit at unit salinity *)

Lemma power_1_l (y : R) : 1 ** y = 1.
Proof.
  unfold np.power, Rpower. rewrite ln_1, Rmult_0_r. apply exp_0.
Qed.

Lemma log10_1 : np.log10 1 = 0.
Proof.
  unfold np.log10. rewrite ln_1. unfold Rdiv. ring.
Qed.

Lemma k_calcite_I75_fit_Sal1 (TempK : R) :
  k_calcite_I75_fit TempK 1 = 0.0000001 * (-74.318 - 0.0000075752 * TempK ^ 2).
Proof.
  unfold k_calcite_I75_fit. rewrite power_1_l, log10_1. lra.
Qed.

Lemma k_calcite_I75_fit_Sal1_neg (TempK : R) : k_calcite_I75_fit TempK 1 < 0.
Proof.
  rewrite k_calcite_I75_fit_Sal1.
  pose proof (pow2_ge_0 TempK) as H. lra.
Qed.


(** ** Standard surface seawater: Sal = 35, TempC = 25, Pdbar = 0 *)

Lemma sqrt_35_gt_5 : 5 < sqrt 35.
Proof.
  rewrite <- (sqrt_square 5) at 1 by lra.
  apply sqrt_lt_1; lra.
Qed.

Lemma power_10_lt (a b : R) : a < b -> 10.0 ** a < 10.0 ** b.
Proof.
  intros Hab. unfold np.power. apply Rpower_lt; lra.
Qed.

Lemma power_10_pos (a : R) : 0 < 10.0 ** a.
Proof. unfold np.power, Rpower. apply exp_pos. Qed.

(** The [log10 TempK] terms of the two M83 fits have the same coefficient
    and cancel; what remains is linear in [sqrt 35]. *)
Lemma M83_logK_order_standard :
  k_calcite_M83_logKCa (convert.TempC2K 25) 35
  < k_aragonite_M83_logKAr (convert.TempC2K 25) 35.
Proof.
  unfold k_calcite_M83_logKCa, k_aragonite_M83_logKAr, convert.TempC2K.
  cbv zeta.
  replace (25 + 273.15) with 298.15 by lra.
  pose proof sqrt_35_gt_5 as Hs.
  set (s := sqrt 35) in *. set (L := np.log10 298.15).
  lra.
Qed.

Lemma Pdbar2bar_0 : convert.Pdbar2bar 0 = 0.
Proof. unfold convert.Pdbar2bar. lra. Qed.

Lemma M83_order_standard (RGasConstant : R) :
  0 < k_calcite_M83 RGasConstant (convert.TempC2K 25) 35 (convert.Pdbar2bar 0)
  /\ k_calcite_M83 RGasConstant (convert.TempC2K 25) 35 (convert.Pdbar2bar 0)
     < k_aragonite_M83 RGasConstant (convert.TempC2K 25) 35 (convert.Pdbar2bar 0).
Proof.
  rewrite Pdbar2bar_0, k_calcite_M83_Pbar0, k_aragonite_M83_Pbar0.
  split.
  - apply power_10_pos.
  - apply power_10_lt, M83_logK_order_standard.
Qed.

(** A positive numerator over a larger positive divisor is smaller. *)
Lemma Omega_antitone (x k k' : R) :
  0 < x -> 0 < k -> k < k' -> 0 < x / k' /\ x / k' < x / k.
Proof.
  intros Hx Hk Hkk'.
  assert (0 < k') as Hk' by lra.
  assert (0 < / k') as Hi' by (apply Rinv_0_lt_compat; assumption).
  assert (/ k' < / k) as Hlt
    by (apply Rinv_lt_contravar; [apply Rmult_lt_0_compat|]; assumption).
  unfold Rdiv. split.
  - apply Rmult_lt_0_compat; assumption.
  - apply Rmult_lt_compat_l; assumption.
Qed.

(** ** Logarithms and powers of ten against rational bounds *)

Lemma ln_10_pos : 0 < ln 10.
Proof. rewrite <- ln_1. apply ln_increasing; lra. Qed.

Lemma ln_10_0 : ln 10.0 = ln 10.
Proof. f_equal. lra. Qed.

Lemma ln_monotone (x y : R) : 0 < x -> x <= y -> ln x <= ln y.
Proof.
  intros Hx [Hlt|Heq].
  - left. apply ln_increasing; assumption.
  - subst. right. reflexivity.
Qed.

(** [p / q] bounds [log10 Sal] from below as soon as [10^p < a^q], [a <= Sal]. *)
Lemma log10_gt (Sal a : R) (p q : nat) :
  0 < a -> a <= Sal -> 10 ^ p < a ^ q -> INR p < INR q * np.log10 Sal.
Proof.
  intros Ha HaS Hpq. unfold np.log10.
  pose proof ln_10_pos as H10.
  assert (INR p * ln 10 < INR q * ln a) as Hln.
  { rewrite <- !ln_pow by lra.
    apply ln_increasing; [apply pow_lt; lra|exact Hpq]. }
  assert (ln a <= ln Sal) as HaS' by (apply ln_monotone; assumption).
  assert (0 <= INR q * (ln Sal - ln a)) as Hq
    by (apply Rmult_le_pos; [apply pos_INR|lra]).
  apply Rmult_lt_reg_r with (ln 10); [exact H10|].
  replace (INR q * (ln Sal / ln 10) * ln 10) with (INR q * ln Sal)
    by (field; lra).
  lra.
Qed.

(** [p / q] bounds [log10 Sal] from above as soon as [b^q < 10^p], [Sal <= b]. *)
Lemma log10_lt (Sal b : R) (p q : nat) :
  0 < Sal -> Sal <= b -> b ^ q < 10 ^ p -> INR q * np.log10 Sal < INR p.
Proof.
  intros HS HSb Hpq. unfold np.log10.
  pose proof ln_10_pos as H10.
  assert (0 < b) as Hb by lra.
  assert (INR q * ln b < INR p * ln 10) as Hln.
  { rewrite <- !ln_pow by lra.
    apply ln_increasing; [apply pow_lt; lra|exact Hpq]. }
  assert (ln Sal <= ln b) as HSb' by (apply ln_monotone; assumption).
  assert (0 <= INR q * (ln b - ln Sal)) as Hq
    by (apply Rmult_le_pos; [apply pos_INR|lra]).
  apply Rmult_lt_reg_r with (ln 10); [exact H10|].
  replace (INR q * (ln Sal / ln 10) * ln 10) with (INR q * ln Sal)
    by (field; lra).
  lra.
Qed.

(** [r < 10 ** x] as soon as [r < 10 ^ (- p / q) <= 10 ** x]. *)
Lemma power_10_gt_root (r x : R) (p q : nat) :
  0 < r -> r ^ q * 10 ^ p < 1 -> - INR p <= INR q * x -> r < 10.0 ** x.
Proof.
  intros Hr Hpq Hx.
  pose proof ln_10_pos as H10.
  assert (0 < r ^ q * 10 ^ p) as Hpos
    by (apply Rmult_lt_0_compat; apply pow_lt; lra).
  assert (ln (r ^ q * 10 ^ p) < 0) as Hln
    by (rewrite <- ln_1; apply ln_increasing; assumption).
  rewrite ln_mult, !ln_pow in Hln by (try apply pow_lt; lra).
  assert (0 < INR q) as Hq.
  { destruct q as [|q]; [|apply lt_0_INR, Nat.lt_0_succ].
    exfalso. simpl in Hln. pose proof (pos_INR p) as Hp.
    assert (0 <= INR p * ln 10) by (apply Rmult_le_pos; lra). lra. }
  assert (0 <= (INR q * x + INR p) * ln 10) as Hx'
    by (apply Rmult_le_pos; lra).
  assert (ln r < x * ln 10) as Hlt.
  { apply Rmult_lt_reg_l with (INR q); [exact Hq|]. lra. }
  unfold np.power, Rpower. rewrite ln_10_0.
  rewrite <- (exp_ln r Hr) at 1. apply exp_increasing. exact Hlt.
Qed.

(** [10 ** x < r] as soon as [10 ** x <= 10 ^ (- p / q) < r]. *)
Lemma power_10_lt_root (r x : R) (p q : nat) :
  0 < r -> 1 < r ^ q * 10 ^ p -> INR q * x <= - INR p -> 10.0 ** x < r.
Proof.
  intros Hr Hpq Hx.
  pose proof ln_10_pos as H10.
  assert (0 < ln (r ^ q * 10 ^ p)) as Hln
    by (rewrite <- ln_1; apply ln_increasing; lra).
  rewrite ln_mult, !ln_pow in Hln by (try apply pow_lt; lra).
  assert (0 < INR q) as Hq.
  { destruct q as [|q]; [|apply lt_0_INR, Nat.lt_0_succ].
    exfalso. simpl in Hx, Hpq. pose proof (pos_INR p) as Hp.
    assert (INR p = 0) as Hp0 by lra.
    destruct p as [|p]; [simpl in Hpq; lra|].
    rewrite S_INR in Hp0. pose proof (pos_INR p). lra. }
  assert (0 <= (- INR p - INR q * x) * ln 10) as Hx'
    by (apply Rmult_le_pos; lra).
  assert (x * ln 10 < ln r) as Hlt.
  { apply Rmult_lt_reg_l with (INR q); [exact Hq|]. lra. }
  unfold np.power, Rpower. rewrite ln_10_0.
  rewrite <- (exp_ln r Hr) at 1. apply exp_increasing. exact Hlt.
Qed.

(** A quotient between bounds, from bounds on its positive divisor. *)
Lemma quotient_bounds (x k lo hi a b : R) :
  0 < lo -> lo < k -> k < hi -> 0 < a -> a * hi <= x -> x <= b * lo ->
  a < x / k < b.
Proof.
  intros Hlo Hk1 Hk2 Ha Hax Hxb.
  assert (0 < k) as Hk by lra.
  assert (a * k < a * hi) as H1 by (apply Rmult_lt_compat_l; assumption).
  assert (0 < a * hi) as Hahi by (apply Rmult_lt_0_compat; lra).
  assert (0 < x) as Hx by lra.
  assert (0 < b) as Hb.
  { destruct (Rlt_le_dec 0 b) as [Hb|Hb]; [exact Hb|exfalso].
    assert (0 <= (- b) * lo) by (apply Rmult_le_pos; lra). lra. }
  assert (b * lo < b * k) as H2 by (apply Rmult_lt_compat_l; assumption).
  split; apply Rmult_lt_reg_r with k; try exact Hk;
    replace (x / k * k) with x by (field; lra); lra.
Qed.

(** ** The standard sample in numbers *)

Lemma sqrt_35_bounds : 5.916 < sqrt 35 < 5.917.
Proof.
  split.
  - rewrite <- (sqrt_square 5.916) at 1 by lra. apply sqrt_lt_1; lra.
  - rewrite <- (sqrt_square 5.917) at 1 by lra. apply sqrt_lt_1; lra.
Qed.

Lemma log10_298_15_bounds :
  47 < 19 * np.log10 298.15 /\ 40 * np.log10 298.15 < 99.
Proof.
  assert (0 < 298.15) as H0 by lra.
  split.
  - assert (10 ^ 47 < 298.15 ^ 19) as Hp by lra.
    pose proof (log10_gt 298.15 298.15 47 19 H0 (Rle_refl _) Hp) as H.
    simpl INR in H. lra.
  - assert (298.15 ^ 40 < 10 ^ 99) as Hp by lra.
    pose proof (log10_lt 298.15 298.15 99 40 H0 (Rle_refl _) Hp) as H.
    simpl INR in H. lra.
Qed.

Lemma M83_logK_standard_bounds :
  -6.5 < k_calcite_M83_logKCa (convert.TempC2K 25) 35 < -6.25
  /\ -6.25 < k_aragonite_M83_logKAr (convert.TempC2K 25) 35 < -6.
Proof.
  unfold k_calcite_M83_logKCa, k_aragonite_M83_logKAr, convert.TempC2K.
  cbv zeta.
  replace (25 + 273.15) with 298.15 by lra.
  destruct sqrt_35_bounds as [Hs1 Hs2].
  destruct log10_298_15_bounds as [HL1 HL2].
  set (s := sqrt 35) in *. set (L := np.log10 298.15) in *.
  repeat split; lra.
Qed.

Lemma M83_standard_constants (RGasConstant : R) :
  0.000000316
  < k_calcite_M83 RGasConstant (convert.TempC2K 25) 35 (convert.Pdbar2bar 0)
  < 0.000000563
  /\ 0.000000562
     < k_aragonite_M83 RGasConstant (convert.TempC2K 25) 35
         (convert.Pdbar2bar 0)
     < 0.00000101.
Proof.
  rewrite Pdbar2bar_0, k_calcite_M83_Pbar0, k_aragonite_M83_Pbar0.
  destruct M83_logK_standard_bounds as [[HCa1 HCa2] [HAr1 HAr2]].
  split; split.
  - apply (power_10_gt_root _ _ 13 2); simpl INR; lra.
  - apply (power_10_lt_root _ _ 25 4); simpl INR; lra.
  - apply (power_10_gt_root _ _ 25 4); simpl INR; lra.
  - apply (power_10_lt_root _ _ 6 1); simpl INR; lra.
Qed.

(** ** What the doubles do where the reals part from them *)

Module Binary64Facts.

Import PrimFloat.
#[local] Open Scope float_scope.
#[local] Set Warnings "-inexact-float".

(** C5, counterexample.  At TempK = 0 and Pbar = 0 the exponent of the M83
    pressure correction is [0.0 / 0.0]: it is nan, and so is the factor,
    which is then not 1. *)
Lemma M83_factor_nan_at_TempK_0 :
  is_nan (Binary64.k_calcite_M83_lnKCafac 83.1451 0 0) = true
  /\ option_map (fun factor => factor =? 1)
       (Binary64.exp (Binary64.k_calcite_M83_lnKCafac 83.1451 0 0))
     = Some false.
Proof. split; vm_compute; reflexivity. Qed.


End Binary64Facts.

(** ** Dispatch on the constant set *)

(** C1. The dispatchers select per element: at every index [i] of a batch,
    a selector of 6 or 7 makes [calcite] use [k_calcite_I75] and [aragonite]
    use [k_aragonite_GEOSECS] on the values of that index, any other selector
    makes them use [k_calcite_M83] and [k_aragonite_M83]; a batch whose
    selectors are 6 at index 0 and 4 at index 1 gets one constant of each
    kind. *)
Theorem dispatch_selects_per_element (RGasConstant : R)
  (TempK Sal Pbar : list R) (WhichKs : list Z)
  (i : nat) (t s p : R) (w : Z) :
  nth_error TempK i = Some t -> nth_error Sal i = Some s ->
  nth_error Pbar i = Some p -> nth_error WhichKs i = Some w ->
  ((w = 6 \/ w = 7)%Z ->
   nth_error (calcite_KCa RGasConstant TempK Sal Pbar WhichKs) i
   = Some (k_calcite_I75 RGasConstant t s p)
   /\ nth_error (aragonite_KAr RGasConstant TempK Sal Pbar WhichKs) i
      = Some (k_aragonite_GEOSECS RGasConstant t s p))
  /\ ((w <> 6 /\ w <> 7)%Z ->
      nth_error (calcite_KCa RGasConstant TempK Sal Pbar WhichKs) i
      = Some (k_calcite_M83 RGasConstant t s p)
      /\ nth_error (aragonite_KAr RGasConstant TempK Sal Pbar WhichKs) i
         = Some (k_aragonite_M83 RGasConstant t s p))
  /\ (forall t0 t1 s0 s1 p0 p1 : R,
      calcite_KCa RGasConstant [t0; t1] [s0; s1] [p0; p1] [6; 4]%Z
      = [k_calcite_I75 RGasConstant t0 s0 p0;
         k_calcite_M83 RGasConstant t1 s1 p1]
      /\ aragonite_KAr RGasConstant [t0; t1] [s0; s1] [p0; p1] [6; 4]%Z
         = [k_aragonite_GEOSECS RGasConstant t0 s0 p0;
            k_aragonite_M83 RGasConstant t1 s1 p1]).
Proof.
  intros Ht Hs Hp Hw.
  pose proof (calcite_KCa_at RGasConstant _ _ _ _ _ _ _ _ _ Ht Hs Hp Hw) as HCa.
  pose proof (aragonite_KAr_at RGasConstant _ _ _ _ _ _ _ _ _ Ht Hs Hp Hw) as HAr.
  split; [|split].
  - intros H67. apply GEOSECS_true in H67.
    rewrite H67 in HCa, HAr. split; assumption.
  - intros Hother. apply GEOSECS_false in Hother.
    rewrite Hother in HCa, HAr. split; assumption.
  - intros t0 t1 s0 s1 p0 p1. split; reflexivity.
Qed.

Lemma dispatch_selects_per_element_witness :
  nth_error [6; 4]%Z 1 = Some 4%Z
  /\ nth_error
       (calcite_KCa 83.1451 [298.15; 275.15] [35; 34] [0; 100] [6; 4]%Z) 1
     = Some (k_calcite_M83 83.1451 275.15 34 100).
Proof.
  split; [reflexivity|].
  destruct (dispatch_selects_per_element 83.1451
              [298.15; 275.15] [35; 34] [0; 100] [6; 4]%Z 1 275.15 34 100 4%Z
              eq_refl eq_refl eq_refl eq_refl) as [_ [HM83 _]].
  apply HM83. split; discriminate.
Defined.



(** C7. The results do not depend on [K1] and [K2]: two runs of [calcite],
    [aragonite] or [CaCO3] that agree on every other argument return the
    same saturation states whatever is passed for [K1] and [K2]. *)
Theorem K1_K2_unused (RGasConstant : R)
  (Sal Temp P CARB TCa : list R) (WhichKs : list Z)
  (K1 K2 K1' K2' : list R) :
  calcite RGasConstant Sal Temp P CARB TCa WhichKs K1 K2
  = calcite RGasConstant Sal Temp P CARB TCa WhichKs K1' K2'
  /\ aragonite RGasConstant Sal Temp P CARB TCa WhichKs K1 K2
     = aragonite RGasConstant Sal Temp P CARB TCa WhichKs K1' K2'
  /\ CaCO3 RGasConstant Sal Temp P CARB TCa WhichKs K1 K2
     = CaCO3 RGasConstant Sal Temp P CARB TCa WhichKs K1' K2'.
Proof.
  repeat split.
Qed.

(** C4. [CaCO3] is [calcite] and [aragonite] behind the unit conversions:
    its first result is [calcite] called with [TempC + 273.15] and
    [Pdbar / 10], its second result is [aragonite] called with the same
    converted arrays. *)
Theorem CaCO3_is_calcite_aragonite_converted (RGasConstant : R)
  (Sal TempC Pdbar CARB TCa : list R) (WhichKs : list Z) (K1 K2 : list R) :
  let TempK := map (fun x : R => x + 273.15) TempC in
  let Pbar := map (fun x : R => x / 10) Pdbar in
  CaCO3 RGasConstant Sal TempC Pdbar CARB TCa WhichKs K1 K2
  = (calcite RGasConstant Sal TempK Pbar CARB TCa WhichKs K1 K2,
     aragonite RGasConstant Sal TempK Pbar CARB TCa WhichKs K1 K2)
  /\ TempK = map convert.TempC2K TempC
  /\ Pbar = map convert.Pdbar2bar Pdbar.
Proof.
  repeat split.
Qed.

(** ** The GEOSECS aragonite constant *)

(** C2. [k_aragonite_GEOSECS] is [1.45 * k_calcite_I75] times its own
    pressure correction [exp ((33.3 - 0.22 * TempC) * Pbar / (R * TempK))]
    with [TempC = TempK - 273.15], for all inputs; the scale factor is 1.45
    and not 1.48: with 1.48 the two sides differ (at TempK = 300, Sal = 1,
    Pbar = 0). *)
Theorem k_aragonite_GEOSECS_is_scaled_calcite (RGasConstant TempK Sal Pbar : R) :
  let TempC := TempK - 273.15 in
  k_aragonite_GEOSECS RGasConstant TempK Sal Pbar
  = 1.45 * k_calcite_I75 RGasConstant TempK Sal Pbar
    * exp ((33.3 - 0.22 * TempC) * Pbar / (RGasConstant * TempK))
  /\ k_aragonite_GEOSECS RGasConstant 300 1 0
     <> 1.48 * k_calcite_I75 RGasConstant 300 1 0
        * exp ((33.3 - 0.22 * (300 - 273.15)) * 0 / (RGasConstant * 300)).
Proof.
  split; [reflexivity|].
  rewrite k_aragonite_GEOSECS_Pbar0, exponent_Pbar0, exp_0.
  rewrite k_calcite_I75_Pbar0.
  pose proof (k_calcite_I75_fit_Sal1_neg 300) as Hneg.
  lra.
Qed.

(** ** The M83 pressure corrections *)

(** C3. The pressure-correction factor of [k_aragonite_M83] is
    [exp ((-(deltaVKCa + 2.8) + 0.5 * KappaKCa * Pbar) * Pbar / (R * TempK))]
    where [deltaVKCa] and [KappaKCa] are what [_deltaKappaCalcite_I75]
    returns at [TempC = TempK - 273.15]: the calcite delta-V plus 2.8, and
    the calcite kappa unchanged. *)
Theorem k_aragonite_M83_pressure_factor (RGasConstant TempK Sal Pbar : R) :
  let TempC := TempK - 273.15 in
  let deltaVKCa := fst (_deltaKappaCalcite_I75 TempC) in
  let KappaKCa := snd (_deltaKappaCalcite_I75 TempC) in
  let factor :=
    exp ((-(deltaVKCa + 2.8) + 0.5 * KappaKCa * Pbar) * Pbar
         / (RGasConstant * TempK)) in
  exp (k_aragonite_M83_lnKArfac RGasConstant TempK Pbar) = factor
  /\ k_aragonite_M83 RGasConstant TempK Sal Pbar
     = 10.0 ** k_aragonite_M83_logKAr TempK Sal * factor
  /\ k_calcite_M83_lnKCafac RGasConstant TempK Pbar
     = (- deltaVKCa + 0.5 * KappaKCa * Pbar) * Pbar / (RGasConstant * TempK).
Proof.
  repeat split.
Qed.

(** C5 (amended). At zero pressure ([Pdbar = 0], hence [Pbar = 0]) and for
    every [TempK <> 0], with a positive gas constant so that the divisor
    [R * TempK] of the exponent is not zero, the exponent of the M83
    pressure correction is 0 and its factor is 1; hence for [TempK >= 1] and
    [Sal >= 0], where [logKCa] is a number, [k_calcite_M83] returns
    [10 ** logKCa], the value of the polynomial fit alone.  At [TempK = 0]
    the exponent is [0.0 / 0.0] and the factor is nan, not 1. *)
Theorem k_calcite_M83_zero_pressure (RGasConstant TempK Sal : R) :
  0 < RGasConstant -> TempK <> 0 ->
  convert.Pdbar2bar 0 = 0
  /\ RGasConstant * TempK <> 0
  /\ k_calcite_M83_lnKCafac RGasConstant TempK 0 = 0
  /\ exp (k_calcite_M83_lnKCafac RGasConstant TempK 0) = 1
  /\ (1 <= TempK -> 0 <= Sal ->
      k_calcite_M83 RGasConstant TempK Sal (convert.Pdbar2bar 0)
      = 10.0 ** k_calcite_M83_logKCa TempK Sal
      /\ k_calcite_M83 RGasConstant TempK Sal 0
         = 10.0 ** (-171.9065 - 0.077993 * TempK + 2839.319 / TempK
                    + 71.595 * np.log10 TempK
                    + (-0.77712 + 0.0028426 * TempK + 178.34 / TempK)
                      * sqrt Sal
                    - 0.07711 * Sal + 0.0041249 * sqrt Sal * Sal)).
Proof.
  intros HR HT.
  split; [apply Pdbar2bar_0|].
  split; [apply Rmult_integral_contrapositive; split; [lra|assumption]|].
  split; [apply lnKCafac_Pbar0|].
  split; [rewrite lnKCafac_Pbar0; apply exp_0|].
  intros HTpos HSal.
  rewrite Pdbar2bar_0, k_calcite_M83_Pbar0. split; reflexivity.
Qed.

Lemma k_calcite_M83_zero_pressure_witness :
  exp (k_calcite_M83_lnKCafac 83.1451 298.15 0) = 1
  /\ k_calcite_M83 83.1451 298.15 35 0
     = 10.0 ** k_calcite_M83_logKCa 298.15 35.
Proof.
  assert (0 < 83.1451) as HR by lra.
  assert (298.15 <> 0) as HT by lra.
  assert (1 <= 298.15) as HTpos by lra.
  assert (0 <= 35) as HSal by lra.
  destruct (k_calcite_M83_zero_pressure 83.1451 298.15 35 HR HT)
    as [_ [_ [_ [Hfactor Hbase]]]].
  split; [exact Hfactor|].
  destruct (Hbase HTpos HSal) as [_ Hpoly]. exact Hpoly.
Defined.

(** ** End to end *)

(** C8. For Sal = 35, TempC = 25, Pdbar = 0, CARB = 200e-6, TCa = 0.0102 and
    WhichKs = 1, [CaCO3] returns [CARB * TCa / KCa] and [CARB * TCa / KAr]
    for the M83 constants at TempK = 25 + 273.15 and Pbar = 0 / 10.  These
    constants satisfy 3.16e-7 < KCa < 5.63e-7 and 5.62e-7 < KAr < 1.01e-6,
    so the M83 aragonite constant exceeds the M83 calcite constant, and
    both saturation states are positive numbers of ordinary size,
    3.62 < OmegaCa < 6.46 and 2 < OmegaAr < 3.63, with OmegaAr < OmegaCa. *)
Theorem CaCO3_standard_seawater (RGasConstant : R) (K1 K2 : list R) :
  0 < RGasConstant ->
  let KCa := k_calcite_M83 RGasConstant (25 + 273.15) 35 (0 / 10) in
  let KAr := k_aragonite_M83 RGasConstant (25 + 273.15) 35 (0 / 10) in
  let OmegaCa := 200e-6 * 0.0102 / KCa in
  let OmegaAr := 200e-6 * 0.0102 / KAr in
  CaCO3 RGasConstant [35] [25] [0] [200e-6] [0.0102] [1]%Z K1 K2
  = ([OmegaCa], [OmegaAr])
  /\ 0.000000316 < KCa < 0.000000563
  /\ 0.000000562 < KAr < 0.00000101
  /\ KCa < KAr
  /\ 3.62 < OmegaCa < 6.46
  /\ 2 < OmegaAr < 3.63
  /\ 0 < OmegaCa /\ 0 < OmegaAr /\ OmegaAr < OmegaCa.
Proof.
  intros HR KCa KAr OmegaCa OmegaAr.
  assert (0.000000316 < KCa < 0.000000563
          /\ 0.000000562 < KAr < 0.00000101) as [HCa HAr]
    by exact (M83_standard_constants RGasConstant).
  assert (0 < KCa /\ KCa < KAr) as [Hpos Hlt]
    by exact (M83_order_standard RGasConstant).
  assert (3.62 < OmegaCa < 6.46) as HOCa
    by (apply (quotient_bounds _ KCa 0.000000316 0.000000563); lra).
  assert (2 < OmegaAr < 3.63) as HOAr
    by (apply (quotient_bounds _ KAr 0.000000562 0.00000101); lra).
  assert (0 < 200e-6 * 0.0102) as Hx by lra.
  destruct (Omega_antitone _ _ _ Hx Hpos Hlt) as [_ HArCa].
  split; [reflexivity|].
  split; [exact HCa|]. split; [exact HAr|]. split; [exact Hlt|].
  split; [exact HOCa|]. split; [exact HOAr|].
  split; [lra|]. split; [lra|]. exact HArCa.
Qed.

Lemma CaCO3_standard_seawater_witness :
  CaCO3 83.1451 [35] [25] [0] [200e-6] [0.0102] [1]%Z [] []
  = ([200e-6 * 0.0102 / k_calcite_M83 83.1451 (25 + 273.15) 35 (0 / 10)],
     [200e-6 * 0.0102 / k_aragonite_M83 83.1451 (25 + 273.15) 35 (0 / 10)])
  /\ 200e-6 * 0.0102 / k_aragonite_M83 83.1451 (25 + 273.15) 35 (0 / 10)
     < 200e-6 * 0.0102 / k_calcite_M83 83.1451 (25 + 273.15) 35 (0 / 10).
Proof.
  assert (0 < 83.1451) as HR by lra.
  destruct (CaCO3_standard_seawater 83.1451 [] [] HR)
    as [Hres [_ [_ [_ [_ [_ [_ [_ Hlt]]]]]]]].
  split; [exact Hres|exact Hlt].
Defined.

(** ** GEOSECS samples *)





(** * Further properties of the solubility module *)

(** ** Arrays: shape, concatenation, extensionality *)

Lemma length_map3 {A B C D : Type} (f : A -> B -> C -> D)
  (a : list A) (b : list B) (c : list C) :
  length b = length a -> length c = length a ->
  length (np.map3 f a b c) = length a.
Proof.
  revert b c.
  induction a as [|x a IH]; intros [|y b] [|z c]; simpl; try discriminate;
    try reflexivity.
  intros Hb Hc. f_equal. apply IH; congruence.
Qed.

Lemma map3_app {A B C D : Type} (f : A -> B -> C -> D)
  (a1 a2 : list A) (b1 b2 : list B) (c1 c2 : list C) :
  length b1 = length a1 -> length c1 = length a1 ->
  np.map3 f (a1 ++ a2) (b1 ++ b2) (c1 ++ c2)
  = np.map3 f a1 b1 c1 ++ np.map3 f a2 b2 c2.
Proof.
  revert b1 c1.
  induction a1 as [|x a1 IH]; intros [|y b1] [|z c1]; simpl; try discriminate.
  - reflexivity.
  - intros Hb Hc. f_equal. apply IH; congruence.
Qed.

Lemma map3_ext {A B C D : Type} (f g : A -> B -> C -> D)
  (a : list A) (b : list B) (c : list C) :
  (forall x y z, f x y z = g x y z) -> np.map3 f a b c = np.map3 g a b c.
Proof.
  intros Hfg. revert b c.
  induction a as [|x a IH]; intros [|y b] [|z c]; simpl; try reflexivity.
  rewrite Hfg, IH. reflexivity.
Qed.

Lemma map3_map_1 {A A' B C D : Type} (f : A' -> B -> C -> D) (g : A -> A')
  (a : list A) (b : list B) (c : list C) :
  np.map3 f (map g a) b c = np.map3 (fun x y z => f (g x) y z) a b c.
Proof.
  revert b c.
  induction a as [|x a IH]; intros [|y b] [|z c]; simpl; try reflexivity.
  rewrite IH. reflexivity.
Qed.

Lemma map3_map_2 {A B B' C D : Type} (f : A -> B' -> C -> D) (g : B -> B')
  (a : list A) (b : list B) (c : list C) :
  np.map3 f a (map g b) c = np.map3 (fun x y z => f x (g y) z) a b c.
Proof.
  revert b c.
  induction a as [|x a IH]; intros [|y b] [|z c]; simpl; try reflexivity.
  rewrite IH. reflexivity.
Qed.

Lemma map_map3 {A B C D E : Type} (f : A -> B -> C -> D) (h : D -> E)
  (a : list A) (b : list B) (c : list C) :
  map h (np.map3 f a b c) = np.map3 (fun x y z => h (f x y z)) a b c.
Proof.
  revert b c.
  induction a as [|x a IH]; intros [|y b] [|z c]; simpl; try reflexivity.
  rewrite IH. reflexivity.
Qed.

Lemma length_where (F : list bool) (x y : list R) :
  length x = length F -> length y = length F ->
  length (np.where_ F x y) = length F.
Proof. apply length_map3. Qed.

Lemma where_app (F1 F2 : list bool) (x1 x2 y1 y2 : list R) :
  length x1 = length F1 -> length y1 = length F1 ->
  np.where_ (F1 ++ F2) (x1 ++ x2) (y1 ++ y2)
  = np.where_ F1 x1 y1 ++ np.where_ F2 x2 y2.
Proof. apply map3_app. Qed.

Section Batches.

Variable RGasConstant : R.

Lemma length_calcite_KCa (n : nat) (TempK Sal Pbar : list R) (WhichKs : list Z) :
  length TempK = n -> length Sal = n -> length Pbar = n ->
  length WhichKs = n ->
  length (calcite_KCa RGasConstant TempK Sal Pbar WhichKs) = n.
Proof.
  intros HT HS HP HW. unfold calcite_KCa. cbv zeta.
  rewrite length_where; rewrite ?length_map, ?length_map3; congruence.
Qed.

Lemma length_aragonite_KAr (n : nat) (TempK Sal Pbar : list R) (WhichKs : list Z) :
  length TempK = n -> length Sal = n -> length Pbar = n ->
  length WhichKs = n ->
  length (aragonite_KAr RGasConstant TempK Sal Pbar WhichKs) = n.
Proof.
  intros HT HS HP HW. unfold aragonite_KAr. cbv zeta.
  rewrite length_where; rewrite ?length_map, ?length_map3; congruence.
Qed.

Lemma calcite_KCa_app (T1 T2 S1 S2 P1 P2 : list R) (W1 W2 : list Z) :
  length S1 = length T1 -> length P1 = length T1 -> length W1 = length T1 ->
  calcite_KCa RGasConstant (T1 ++ T2) (S1 ++ S2) (P1 ++ P2) (W1 ++ W2)
  = calcite_KCa RGasConstant T1 S1 P1 W1
    ++ calcite_KCa RGasConstant T2 S2 P2 W2.
Proof.
  intros HS HP HW. unfold calcite_KCa. cbv zeta.
  rewrite map_app, !map3_app by assumption.
  apply where_app; rewrite length_map3, ?length_map; congruence.
Qed.

Lemma aragonite_KAr_app (T1 T2 S1 S2 P1 P2 : list R) (W1 W2 : list Z) :
  length S1 = length T1 -> length P1 = length T1 -> length W1 = length T1 ->
  aragonite_KAr RGasConstant (T1 ++ T2) (S1 ++ S2) (P1 ++ P2) (W1 ++ W2)
  = aragonite_KAr RGasConstant T1 S1 P1 W1
    ++ aragonite_KAr RGasConstant T2 S2 P2 W2.
Proof.
  intros HS HP HW. unfold aragonite_KAr. cbv zeta.
  rewrite map_app, !map3_app by assumption.
  apply where_app; rewrite length_map3, ?length_map; congruence.
Qed.

End Batches.

(** X1. A batch of [n] samples gives [n] saturation states: when every input
    array of [CaCO3] has length [n], both returned arrays have length [n]
    (and an empty batch gives two empty arrays). *)
Theorem CaCO3_shape (RGasConstant : R) (n : nat)
  (Sal TempC Pdbar CARB TCa : list R) (WhichKs : list Z) (K1 K2 : list R) :
  length Sal = n -> length TempC = n -> length Pdbar = n ->
  length CARB = n -> length TCa = n -> length WhichKs = n ->
  length (fst (CaCO3 RGasConstant Sal TempC Pdbar CARB TCa WhichKs K1 K2)) = n
  /\ length (snd (CaCO3 RGasConstant Sal TempC Pdbar CARB TCa WhichKs K1 K2))
     = n.
Proof.
  intros HS HT HP HC HCa HW. unfold CaCO3, calcite, aragonite. cbv zeta.
  simpl fst. simpl snd.
  assert (length (map convert.TempC2K TempC) = n) as HT'
    by (rewrite length_map; exact HT).
  assert (length (map convert.Pdbar2bar Pdbar) = n) as HP'
    by (rewrite length_map; exact HP).
  split.
  - rewrite length_map3; [exact HC|congruence|].
    rewrite (length_calcite_KCa RGasConstant n); congruence.
  - rewrite length_map3; [exact HC|congruence|].
    rewrite (length_aragonite_KAr RGasConstant n); congruence.
Qed.

Lemma CaCO3_shape_witness :
  length (fst (CaCO3 83.1451 [35; 34] [25; 2] [0; 1000] [200e-6; 90e-6]
                 [0.0102; 0.0101] [1; 6]%Z [] [])) = 2%nat
  /\ length (snd (CaCO3 83.1451 [] [] [] [] [] [] [] [])) = 0%nat.
Proof.
  split.
  - exact (proj1 (CaCO3_shape 83.1451 2 [35; 34] [25; 2] [0; 1000]
                    [200e-6; 90e-6] [0.0102; 0.0101] [1; 6]%Z [] []
                    eq_refl eq_refl eq_refl eq_refl eq_refl eq_refl)).
  - exact (proj2 (CaCO3_shape 83.1451 0 [] [] [] [] [] [] [] []
                    eq_refl eq_refl eq_refl eq_refl eq_refl eq_refl)).
Defined.

(** X2. Samples do not influence each other: running [calcite], [aragonite]
    or [CaCO3] on two batches laid end to end gives the results of the first
    batch followed by the results of the second, when within each batch the
    arrays all have the same length. *)
Theorem batches_concatenate (RGasConstant : R)
  (S1 S2 T1 T2 P1 P2 C1 C2 Ca1 Ca2 : list R) (W1 W2 : list Z)
  (K1 K2 K1' K2' K1'' K2'' : list R) :
  length T1 = length S1 -> length P1 = length S1 -> length C1 = length S1 ->
  length Ca1 = length S1 -> length W1 = length S1 ->
  length T2 = length S2 -> length P2 = length S2 -> length C2 = length S2 ->
  length Ca2 = length S2 -> length W2 = length S2 ->
  calcite RGasConstant (S1 ++ S2) (T1 ++ T2) (P1 ++ P2) (C1 ++ C2)
    (Ca1 ++ Ca2) (W1 ++ W2) K1 K2
  = calcite RGasConstant S1 T1 P1 C1 Ca1 W1 K1' K2'
    ++ calcite RGasConstant S2 T2 P2 C2 Ca2 W2 K1'' K2''
  /\ aragonite RGasConstant (S1 ++ S2) (T1 ++ T2) (P1 ++ P2) (C1 ++ C2)
       (Ca1 ++ Ca2) (W1 ++ W2) K1 K2
     = aragonite RGasConstant S1 T1 P1 C1 Ca1 W1 K1' K2'
       ++ aragonite RGasConstant S2 T2 P2 C2 Ca2 W2 K1'' K2''
  /\ CaCO3 RGasConstant (S1 ++ S2) (T1 ++ T2) (P1 ++ P2) (C1 ++ C2)
       (Ca1 ++ Ca2) (W1 ++ W2) K1 K2
     = (fst (CaCO3 RGasConstant S1 T1 P1 C1 Ca1 W1 K1' K2')
        ++ fst (CaCO3 RGasConstant S2 T2 P2 C2 Ca2 W2 K1'' K2''),
        snd (CaCO3 RGasConstant S1 T1 P1 C1 Ca1 W1 K1' K2')
        ++ snd (CaCO3 RGasConstant S2 T2 P2 C2 Ca2 W2 K1'' K2'')).
Proof.
  intros HT HP HC HCa HW _ _ _ _ _.
  assert (forall T1 T2 P1 P2 : list R,
    length T1 = length S1 -> length P1 = length S1 ->
    calcite RGasConstant (S1 ++ S2) (T1 ++ T2) (P1 ++ P2) (C1 ++ C2)
      (Ca1 ++ Ca2) (W1 ++ W2) K1 K2
    = calcite RGasConstant S1 T1 P1 C1 Ca1 W1 K1' K2'
      ++ calcite RGasConstant S2 T2 P2 C2 Ca2 W2 K1'' K2'') as Hcalcite.
  { intros T1' T2' P1' P2' HT' HP'. unfold calcite. cbv zeta.
    rewrite calcite_KCa_app by congruence.
    apply map3_app; [congruence|].
    rewrite (length_calcite_KCa RGasConstant (length S1)); congruence. }
  assert (forall T1 T2 P1 P2 : list R,
    length T1 = length S1 -> length P1 = length S1 ->
    aragonite RGasConstant (S1 ++ S2) (T1 ++ T2) (P1 ++ P2) (C1 ++ C2)
      (Ca1 ++ Ca2) (W1 ++ W2) K1 K2
    = aragonite RGasConstant S1 T1 P1 C1 Ca1 W1 K1' K2'
      ++ aragonite RGasConstant S2 T2 P2 C2 Ca2 W2 K1'' K2'') as Haragonite.
  { intros T1' T2' P1' P2' HT' HP'. unfold aragonite. cbv zeta.
    rewrite aragonite_KAr_app by congruence.
    apply map3_app; [congruence|].
    rewrite (length_aragonite_KAr RGasConstant (length S1)); congruence. }
  split; [apply Hcalcite; assumption|].
  split; [apply Haragonite; assumption|].
  unfold CaCO3. cbv zeta. simpl fst. simpl snd.
  rewrite !map_app.
  rewrite Hcalcite, Haragonite by (rewrite length_map; assumption).
  reflexivity.
Qed.

Lemma batches_concatenate_witness :
  calcite 83.1451 ([35] ++ [34]) ([298.15] ++ [275.15]) ([0] ++ [100])
    ([200e-6] ++ [90e-6]) ([0.0102] ++ [0.0101]) ([1] ++ [6])%Z [] []
  = calcite 83.1451 [35] [298.15] [0] [200e-6] [0.0102] [1]%Z [] []
    ++ calcite 83.1451 [34] [275.15] [100] [90e-6] [0.0101] [6]%Z [] [].
Proof.
  exact (proj1 (batches_concatenate 83.1451
                  [35] [34] [298.15] [275.15] [0] [100] [200e-6] [90e-6]
                  [0.0102] [0.0101] [1]%Z [6]%Z [] [] [] [] [] []
                  eq_refl eq_refl eq_refl eq_refl eq_refl
                  eq_refl eq_refl eq_refl eq_refl eq_refl)).
Defined.

(** X3. The saturation states are linear in the carbonate ion concentration
    and in the calcium concentration: multiplying every [CARB] (or every
    [TCa]) by a factor [k] multiplies every OmegaCa and OmegaAr by [k]. *)
Theorem omega_linear_in_CARB_and_TCa (RGasConstant k : R)
  (Sal TempK Pbar CARB TCa : list R) (WhichKs : list Z) (K1 K2 : list R) :
  calcite RGasConstant Sal TempK Pbar (map (Rmult k) CARB) TCa WhichKs K1 K2
  = map (Rmult k)
      (calcite RGasConstant Sal TempK Pbar CARB TCa WhichKs K1 K2)
  /\ calcite RGasConstant Sal TempK Pbar CARB (map (Rmult k) TCa) WhichKs K1 K2
     = map (Rmult k)
         (calcite RGasConstant Sal TempK Pbar CARB TCa WhichKs K1 K2)
  /\ aragonite RGasConstant Sal TempK Pbar (map (Rmult k) CARB) TCa
       WhichKs K1 K2
     = map (Rmult k)
         (aragonite RGasConstant Sal TempK Pbar CARB TCa WhichKs K1 K2)
  /\ aragonite RGasConstant Sal TempK Pbar CARB (map (Rmult k) TCa)
       WhichKs K1 K2
     = map (Rmult k)
         (aragonite RGasConstant Sal TempK Pbar CARB TCa WhichKs K1 K2).
Proof.
  unfold calcite, aragonite. cbv zeta.
  rewrite !map3_map_1, !map3_map_2, !map_map3.
  repeat split; apply map3_ext; intros c t K; unfold Rdiv; ring.
Qed.

(** X4. The constant-set selector matters only through the GEOSECS mask: two
    selector arrays that agree, sample by sample, on "is 6 or 7" give the
    same saturation states; in particular 6 and 7 are interchangeable, and so
    are any two selectors outside {6, 7}. *)
Theorem selector_matters_only_through_mask (RGasConstant : R)
  (Sal TempK Pbar CARB TCa : list R) (WhichKs WhichKs' : list Z)
  (K1 K2 : list R) :
  Forall2 (fun w w' : Z => GEOSECS w = GEOSECS w') WhichKs WhichKs' ->
  calcite RGasConstant Sal TempK Pbar CARB TCa WhichKs K1 K2
  = calcite RGasConstant Sal TempK Pbar CARB TCa WhichKs' K1 K2
  /\ aragonite RGasConstant Sal TempK Pbar CARB TCa WhichKs K1 K2
     = aragonite RGasConstant Sal TempK Pbar CARB TCa WhichKs' K1 K2.
Proof.
  intros Hmask.
  assert (map GEOSECS WhichKs = map GEOSECS WhichKs') as HF.
  { induction Hmask as [|w w' W W' Hw _ IH]; simpl; [reflexivity|].
    rewrite Hw, IH. reflexivity. }
  unfold calcite, aragonite, calcite_KCa, aragonite_KAr. cbv zeta.
  rewrite HF. split; reflexivity.
Qed.

Lemma selector_matters_only_through_mask_witness :
  calcite 83.1451 [35; 34] [298.15; 275.15] [0; 100] [200e-6; 90e-6]
    [0.0102; 0.0101] [6; 1]%Z [] []
  = calcite 83.1451 [35; 34] [298.15; 275.15] [0; 100] [200e-6; 90e-6]
      [0.0102; 0.0101] [7; 15]%Z [] [].
Proof.
  refine (proj1 (selector_matters_only_through_mask 83.1451
                   [35; 34] [298.15; 275.15] [0; 100] [200e-6; 90e-6]
                   [0.0102; 0.0101] [6; 1]%Z [7; 15]%Z [] [] _)).
  repeat constructor.
Defined.

(** ** Signs and orders of the solubility constants *)

Lemma k_calcite_M83_pos (RGasConstant TempK Sal Pbar : R) :
  0 < k_calcite_M83 RGasConstant TempK Sal Pbar.
Proof.
  unfold k_calcite_M83. cbv zeta.
  apply Rmult_lt_0_compat; [apply power_10_pos|apply exp_pos].
Qed.

Lemma k_aragonite_M83_pos (RGasConstant TempK Sal Pbar : R) :
  0 < k_aragonite_M83 RGasConstant TempK Sal Pbar.
Proof.
  unfold k_aragonite_M83. cbv zeta.
  apply Rmult_lt_0_compat; [apply power_10_pos|apply exp_pos].
Qed.

(** The two pressure corrections of the GEOSECS aragonite constant add up. *)
Lemma k_aragonite_GEOSECS_exponents (RGasConstant TempK Sal Pbar : R) :
  k_aragonite_GEOSECS RGasConstant TempK Sal Pbar
  = 1.45 * k_calcite_I75_fit TempK Sal
    * exp ((69.3 - 0.42 * (TempK - 273.15)) * Pbar / (RGasConstant * TempK)).
Proof.
  unfold k_aragonite_GEOSECS, k_calcite_I75, convert.TempK2C. cbv zeta.
  replace ((69.3 - 0.42 * (TempK - 273.15)) * Pbar / (RGasConstant * TempK))
    with ((36 - 0.2 * (TempK - 273.15)) * Pbar / (RGasConstant * TempK)
          + (33.3 - 0.22 * (TempK - 273.15)) * Pbar / (RGasConstant * TempK))
    by (unfold Rdiv; lra).
  rewrite exp_plus. ring.
Qed.

(** An exponent [a * Pbar / (R * TempK)] with [a >= 0] is not negative on
    the physical domain. *)
Lemma exponent_nonneg (a Pbar RGasConstant TempK : R) :
  0 <= a -> 0 <= Pbar -> 0 < RGasConstant -> 0 < TempK ->
  0 <= a * Pbar / (RGasConstant * TempK).
Proof.
  intros Ha HP HR HT. unfold Rdiv.
  apply Rmult_le_pos; [apply Rmult_le_pos; assumption|].
  left. apply Rinv_0_lt_compat, Rmult_lt_0_compat; assumption.
Qed.

Lemma exp_ge_1 (x : R) : 0 <= x -> 1 <= exp x.
Proof.
  intros [Hx|Hx].
  - left. rewrite <- exp_0. apply exp_increasing. exact Hx.
  - subst. rewrite exp_0. apply Rle_refl.
Qed.

(** The quadratic numerator of the M83 exponents grows with pressure as long
    as the compressibility term stays below the volume term. *)
Lemma M83_exponent_increasing (dV kappa P1 P2 RGasConstant TempK : R) :
  0 < RGasConstant -> 0 < TempK ->
  0 <= P1 -> P1 < P2 -> P2 <= 1200 ->
  21 <= - dV -> -0.013 <= kappa ->
  (- dV + 0.5 * kappa * P1) * P1 / (RGasConstant * TempK)
  < (- dV + 0.5 * kappa * P2) * P2 / (RGasConstant * TempK).
Proof.
  intros HR HT HP1 HP12 HP2 HdV Hk.
  assert (0 < / (RGasConstant * TempK)) as Hinv
    by (apply Rinv_0_lt_compat, Rmult_lt_0_compat; assumption).
  unfold Rdiv. apply Rmult_lt_compat_r; [exact Hinv|].
  assert (0 <= (kappa + 0.013) * (P1 + P2)) as Hk'
    by (apply Rmult_le_pos; lra).
  assert (0 < (P2 - P1) * (- dV + 0.5 * (kappa * (P1 + P2)))) as Hdiff
    by (apply Rmult_lt_0_compat; lra).
  lra.
Qed.

Lemma deltaKappa_bounds (TempK : R) :
  270 <= TempK <= 320 ->
  23.8 <= - fst (_deltaKappaCalcite_I75 (convert.TempK2C TempK))
  /\ -0.013 <= snd (_deltaKappaCalcite_I75 (convert.TempK2C TempK)).
Proof.
  intros [Hlo Hhi]. unfold _deltaKappaCalcite_I75, convert.TempK2C.
  cbv zeta. simpl fst. simpl snd. lra.
Qed.

Lemma lnKCafac_increasing (RGasConstant TempK P1 P2 : R) :
  0 < RGasConstant -> 270 <= TempK <= 320 ->
  0 <= P1 -> P1 < P2 -> P2 <= 1200 ->
  k_calcite_M83_lnKCafac RGasConstant TempK P1
  < k_calcite_M83_lnKCafac RGasConstant TempK P2.
Proof.
  intros HR HT HP1 HP12 HP2.
  destruct (deltaKappa_bounds TempK HT) as [HdV Hk].
  unfold k_calcite_M83_lnKCafac. cbv zeta.
  destruct (_deltaKappaCalcite_I75 (convert.TempK2C TempK)) as [dV kappa].
  simpl fst in HdV. simpl snd in Hk.
  apply M83_exponent_increasing; lra.
Qed.

Lemma lnKArfac_increasing (RGasConstant TempK P1 P2 : R) :
  0 < RGasConstant -> 270 <= TempK <= 320 ->
  0 <= P1 -> P1 < P2 -> P2 <= 1200 ->
  k_aragonite_M83_lnKArfac RGasConstant TempK P1
  < k_aragonite_M83_lnKArfac RGasConstant TempK P2.
Proof.
  intros HR HT HP1 HP12 HP2.
  destruct (deltaKappa_bounds TempK HT) as [HdV Hk].
  unfold k_aragonite_M83_lnKArfac. cbv zeta.
  destruct (_deltaKappaCalcite_I75 (convert.TempK2C TempK)) as [dV kappa].
  simpl fst in HdV. simpl snd in Hk.
  apply M83_exponent_increasing; lra.
Qed.

(** ** M83: aragonite against calcite at zero pressure *)

(** The [log10 TempK] terms cancel in the difference of the two fits; with
    [s = sqrt Sal] what is left is a cubic in [s] whose coefficients depend on
    [TempK]. *)
Lemma M83_logK_diff (TempK Sal : R) :
  0 <= Sal ->
  k_aragonite_M83_logKAr TempK Sal - k_calcite_M83_logKCa TempK Sal
  = -0.0385 + 63.974 / TempK
    + (0.708727 - 0.001115 * TempK - 90.205 / TempK) * sqrt Sal
    - 0.02307 * (sqrt Sal * sqrt Sal)
    + 0.0018166 * (sqrt Sal * (sqrt Sal * sqrt Sal)).
Proof.
  intros HS. unfold k_aragonite_M83_logKAr, k_calcite_M83_logKCa. cbv zeta.
  rewrite (sqrt_sqrt Sal HS).
  set (s := sqrt Sal). set (L := np.log10 TempK).
  unfold Rdiv. set (i := / TempK). lra.
Qed.

Lemma M83_diff_c0_bound (T : R) :
  270 <= T <= 320 -> 0.16 <= -0.0385 + 63.974 / T.
Proof.
  intros [Hlo Hhi].
  assert (63.974 / 320 <= 63.974 / T) as H.
  { unfold Rdiv. apply Rmult_le_compat_l; [lra|].
    apply Rinv_le_contravar; lra. }
  lra.
Qed.

Lemma M83_diff_c1_bound (T : R) :
  270 <= T <= 320 -> 0.07 <= 0.708727 - 0.001115 * T - 90.205 / T.
Proof.
  intros [Hlo Hhi].
  assert (0 < T) as HT by lra.
  apply Rmult_le_reg_r with (r := T); [exact HT|].
  replace ((0.708727 - 0.001115 * T - 90.205 / T) * T)
    with (0.708727 * T - 0.001115 * (T * T) - 90.205) by (field; lra).
  assert (0 <= (T - 270) * (320 - T)) as Hprod by (apply Rmult_le_pos; lra).
  lra.
Qed.

Lemma M83_diff_cubic_pos (s c0 c1 : R) :
  0 <= s -> 0.16 <= c0 -> 0.07 <= c1 ->
  0 < c0 + c1 * s - 0.02307 * (s * s) + 0.0018166 * (s * (s * s)).
Proof.
  intros Hs Hc0 Hc1.
  assert (0 <= (c1 - 0.07) * s) as Hc1s by (apply Rmult_le_pos; lra).
  destruct (Rle_dec s 8) as [H8|H8].
  - assert (0 <= s * ((s - 6.35) * (s - 6.35))) as Hsq
      by (apply Rmult_le_pos; [exact Hs|apply Rle_0_sqr]).
    assert (0 <= s * s) as Hss by (apply Rmult_le_pos; exact Hs).
    lra.
  - assert (0 <= (s - 8) * (0.0018166 * (s + 8) - 0.02307)) as Hq
      by (apply Rmult_le_pos; lra).
    assert (0 <= s * (0.0018166 * (s * s) - 0.02307 * s + 0.07)) as Hsq
      by (apply Rmult_le_pos; lra).
    lra.
Qed.

Lemma M83_logK_order (TempK Sal : R) :
  270 <= TempK <= 320 -> 0 <= Sal ->
  k_calcite_M83_logKCa TempK Sal < k_aragonite_M83_logKAr TempK Sal.
Proof.
  intros HT HS.
  pose proof (M83_logK_diff TempK Sal HS) as Hdiff.
  pose proof (M83_diff_cubic_pos (sqrt Sal) _ _ (sqrt_pos Sal)
                (M83_diff_c0_bound TempK HT) (M83_diff_c1_bound TempK HT))
    as Hpos.
  lra.
Qed.

(** ** ICHP73: where the fit is positive *)

(** [c] bounds the cube root of [Sal] from above as soon as [Sal <= b < c^3]. *)
Lemma cube_root_lt (Sal b c : R) :
  0 < Sal -> Sal <= b -> 0 < c -> b < c ^ 3 -> Sal ** (1 / 3) < c.
Proof.
  intros HS HSb Hc Hb. unfold np.power.
  apply Rle_lt_trans with (Rpower b (1 / 3)).
  - apply Rle_Rpower_l; lra.
  - apply Rlt_le_trans with (Rpower (c ^ 3) (1 / 3)).
    + apply Rlt_Rpower_l; lra.
    + rewrite <- (Rpower_pow 3 c Hc), Rpower_mult.
      replace (INR 3 * (1 / 3)) with 1 by (simpl; lra).
      rewrite (Rpower_1 c Hc). apply Rle_refl.
Qed.

Lemma I75_fit_pos_on (TempK Sal a b c : R) (p q : nat) :
  0 < a -> a <= Sal <= b -> 0 < c -> b < c ^ 3 -> 10 ^ p < a ^ q ->
  0 <= TempK <= 320 ->
  (34.452 + 39.866 * c + 0.0000075752 * 320 ^ 2) * INR q <= 110.21 * INR p ->
  0 < k_calcite_I75_fit TempK Sal.
Proof.
  intros Ha [HaS HSb] Hc Hb Hpq [HT0 HT] Hmargin.
  pose proof (cube_root_lt Sal b c ltac:(lra) HSb Hc Hb) as Hroot.
  pose proof (log10_gt Sal a p q Ha HaS Hpq) as Hlog.
  assert (0 <= (320 - TempK) * (320 + TempK)) as HT2
    by (apply Rmult_le_pos; lra).
  unfold k_calcite_I75_fit.
  set (r := Sal ** (1 / 3)) in *. set (l := np.log10 Sal) in *.
  assert (0 < INR q) as Hq.
  { destruct q as [|q]; [|apply lt_0_INR; apply Nat.lt_0_succ].
    exfalso. simpl in Hlog. pose proof (pos_INR p). lra. }
  assert (0 <= INR q * (c - r)) as Hqr by (apply Rmult_le_pos; lra).
  assert (0 <= INR q * ((320 - TempK) * (320 + TempK))) as HqT
    by (apply Rmult_le_pos; lra).
  assert (0 < (-34.452 - 39.866 * r + 110.21 * l
               - 0.0000075752 * TempK ^ 2) * INR q) as Hpos
    by (simpl pow in *; lra).
  assert (0 < -34.452 - 39.866 * r + 110.21 * l
              - 0.0000075752 * TempK ^ 2) as Hpos'.
  { apply Rmult_lt_reg_r with (INR q); [exact Hq|]. lra. }
  lra.
Qed.

Lemma I75_fit_pos_ocean (TempK Sal : R) :
  0 <= TempK <= 320 -> 30 <= Sal <= 40 -> 0 < k_calcite_I75_fit TempK Sal.
Proof.
  intros HT [Hlo Hhi].
  destruct (Rle_dec Sal 32) as [H32|H32];
    [|destruct (Rle_dec Sal 34) as [H34|H34];
      [|destruct (Rle_dec Sal 35) as [H35|H35];
        [|destruct (Rle_dec Sal 37) as [H37|H37]]]].
  - apply (I75_fit_pos_on TempK Sal 30 32 3.18 25 17); try lra. simpl; lra.
  - apply (I75_fit_pos_on TempK Sal 32 34 3.24 3 2); try lra. simpl; lra.
  - apply (I75_fit_pos_on TempK Sal 34 35 3.28 26 17); try lra. simpl; lra.
  - apply (I75_fit_pos_on TempK Sal 35 37 3.34 20 13); try lra. simpl; lra.
  - apply (I75_fit_pos_on TempK Sal 37 40 3.42 25 16); try lra. simpl; lra.
Qed.

(** The exponential factors keep the sign of the fit. *)
Lemma k_calcite_I75_pos (RGasConstant TempK Sal Pbar : R) :
  0 < k_calcite_I75_fit TempK Sal ->
  0 < k_calcite_I75 RGasConstant TempK Sal Pbar.
Proof.
  intros Hfit. unfold k_calcite_I75. cbv zeta.
  apply Rmult_lt_0_compat; [exact Hfit|apply exp_pos].
Qed.

Lemma k_aragonite_GEOSECS_pos (RGasConstant TempK Sal Pbar : R) :
  0 < k_calcite_I75_fit TempK Sal ->
  0 < k_aragonite_GEOSECS RGasConstant TempK Sal Pbar.
Proof.
  intros Hfit. rewrite k_aragonite_GEOSECS_exponents.
  apply Rmult_lt_0_compat; [lra|apply exp_pos].
Qed.

Lemma exponent_increasing (a P1 P2 RGasConstant TempK : R) :
  0 < a -> 0 < RGasConstant -> 0 < TempK -> P1 < P2 ->
  a * P1 / (RGasConstant * TempK) < a * P2 / (RGasConstant * TempK).
Proof.
  intros Ha HR HT HP. unfold Rdiv.
  apply Rmult_lt_compat_r.
  - apply Rinv_0_lt_compat, Rmult_lt_0_compat; assumption.
  - apply Rmult_lt_compat_l; assumption.
Qed.

(** ** The M83 branch on oceanographic conditions *)

(** X6. Over the reals, for a gas constant between 80 and 90, TempK between
    270 and 320, Sal between 0 and 50 and pressures between 0 and 1200 bar
    that are at least 1 bar apart, the M83 constants are positive and
    strictly larger at the higher pressure: the pressure correction built
    from [_deltaKappaCalcite_I75] makes calcite and aragonite more soluble
    at depth. *)
Theorem M83_increases_with_pressure (RGasConstant TempK Sal P1 P2 : R) :
  80 <= RGasConstant <= 90 -> 270 <= TempK <= 320 -> 0 <= Sal <= 50 ->
  0 <= P1 -> P1 + 1 <= P2 -> P2 <= 1200 ->
  0 < k_calcite_M83 RGasConstant TempK Sal P1
  /\ k_calcite_M83 RGasConstant TempK Sal P1
     < k_calcite_M83 RGasConstant TempK Sal P2
  /\ 0 < k_aragonite_M83 RGasConstant TempK Sal P1
  /\ k_aragonite_M83 RGasConstant TempK Sal P1
     < k_aragonite_M83 RGasConstant TempK Sal P2.
Proof.
  intros HR HT HS HP1 HP12 HP2.
  split; [apply k_calcite_M83_pos|].
  split; [|split; [apply k_aragonite_M83_pos|]];
    unfold k_calcite_M83, k_aragonite_M83; cbv zeta.
  - apply Rmult_lt_compat_l; [apply power_10_pos|].
    apply exp_increasing, lnKCafac_increasing; lra.
  - apply Rmult_lt_compat_l; [apply power_10_pos|].
    apply exp_increasing, lnKArfac_increasing; lra.
Qed.

Lemma M83_increases_with_pressure_witness :
  k_calcite_M83 83.1451 275.15 35 0 < k_calcite_M83 83.1451 275.15 35 400.
Proof.
  assert (80 <= 83.1451 <= 90) as HR by lra.
  assert (270 <= 275.15 <= 320) as HT by lra.
  assert (0 <= 35 <= 50) as HS by lra.
  assert (0 <= 0) as HP1 by lra.
  assert (0 + 1 <= 400) as HP12 by lra.
  assert (400 <= 1200) as HP2 by lra.
  exact (proj1 (proj2 (M83_increases_with_pressure 83.1451 275.15 35 0 400
                         HR HT HS HP1 HP12 HP2))).
Defined.

(** X7. Over the reals, at zero pressure, for TempK between 270 and 320 and
    Sal between 0 and 50, the M83 aragonite constant exceeds the M83 calcite
    constant; hence on a sample whose selector is not 6 or 7, with CARB and
    TCa between 1e-9 and 1, 0 < OmegaAr < OmegaCa. *)
Theorem M83_aragonite_more_soluble_at_surface (RGasConstant : R)
  (Sal TempK Pbar CARB TCa : list R) (WhichKs : list Z) (K1 K2 : list R)
  (i : nat) (t s c ca : R) (w : Z) :
  nth_error TempK i = Some t -> nth_error Sal i = Some s ->
  nth_error Pbar i = Some 0 -> nth_error WhichKs i = Some w ->
  nth_error CARB i = Some c -> nth_error TCa i = Some ca ->
  (w <> 6 /\ w <> 7)%Z ->
  80 <= RGasConstant <= 90 -> 270 <= t <= 320 -> 0 <= s <= 50 ->
  0.000000001 <= c <= 1 -> 0.000000001 <= ca <= 1 ->
  0 < k_calcite_M83 RGasConstant t s 0
  /\ k_calcite_M83 RGasConstant t s 0 < k_aragonite_M83 RGasConstant t s 0
  /\ nth_error (calcite RGasConstant Sal TempK Pbar CARB TCa WhichKs K1 K2) i
     = Some (c * ca / k_calcite_M83 RGasConstant t s 0)
  /\ nth_error (aragonite RGasConstant Sal TempK Pbar CARB TCa WhichKs K1 K2) i
     = Some (c * ca / k_aragonite_M83 RGasConstant t s 0)
  /\ 0 < c * ca / k_aragonite_M83 RGasConstant t s 0
  /\ c * ca / k_aragonite_M83 RGasConstant t s 0
     < c * ca / k_calcite_M83 RGasConstant t s 0.
Proof.
  intros Ht Hs Hp Hw Hc Hca Hother HR Htrange Hsrange Hcrange Hcarange.
  apply GEOSECS_false in Hother.
  assert (k_calcite_M83 RGasConstant t s 0 < k_aragonite_M83 RGasConstant t s 0)
    as Hlt.
  { rewrite k_calcite_M83_Pbar0, k_aragonite_M83_Pbar0.
    apply power_10_lt, M83_logK_order; lra. }
  assert (0 < c * ca) as Hx by (apply Rmult_lt_0_compat; lra).
  pose proof (k_calcite_M83_pos RGasConstant t s 0) as Hpos.
  destruct (Omega_antitone _ _ _ Hx Hpos Hlt) as [HOAr HOlt].
  split; [exact Hpos|]. split; [exact Hlt|].
  split.
  { rewrite (calcite_at RGasConstant _ _ _ _ _ _ K1 K2 _ _ _ _ _ _ _
               Ht Hs Hp Hw Hc Hca), Hother. reflexivity. }
  split.
  { rewrite (aragonite_at RGasConstant _ _ _ _ _ _ K1 K2 _ _ _ _ _ _ _
               Ht Hs Hp Hw Hc Hca), Hother. reflexivity. }
  split; assumption.
Qed.

Lemma M83_aragonite_more_soluble_at_surface_witness :
  k_calcite_M83 83.1451 275.15 34 0 < k_aragonite_M83 83.1451 275.15 34 0.
Proof.
  assert (80 <= 83.1451 <= 90) as HR by lra.
  assert (270 <= 275.15 <= 320) as HT by lra.
  assert (0 <= 34 <= 50) as HS by lra.
  assert (0.000000001 <= 90e-6 <= 1) as HC by lra.
  assert (0.000000001 <= 0.0101 <= 1) as HCa by lra.
  assert ((10 <> 6 /\ 10 <> 7)%Z) as Hw by (split; discriminate).
  exact (proj1 (proj2 (M83_aragonite_more_soluble_at_surface 83.1451
                  [35; 34] [298.15; 275.15] [0; 0] [200e-6; 90e-6]
                  [0.0102; 0.0101] [6; 10]%Z [] []
                  1 275.15 34 90e-6 0.0101 10%Z
                  eq_refl eq_refl eq_refl eq_refl eq_refl eq_refl
                  Hw HR HT HS HC HCa))).
Defined.

(** ** The GEOSECS branch *)

(** X8. Read as formulas over the reals (exact arithmetic, no rounding),
    [k_aragonite_GEOSECS] carries both pressure corrections, the one
    [k_calcite_I75] has already applied and its own: for R > 0, TempK > 0
    and Sal > 0 it equals 1.45 times the ICHP73 fit times
    [exp ((69.3 - 0.42 * TempC) * Pbar / (R * TempK))], the exponents
    36 - 0.2 TempC and 33.3 - 0.22 TempC added. *)
Theorem k_aragonite_GEOSECS_both_corrections (RGasConstant TempK Sal Pbar : R) :
  0 < RGasConstant -> 0 < TempK -> 0 < Sal ->
  k_aragonite_GEOSECS RGasConstant TempK Sal Pbar
  = 1.45 * k_calcite_I75_fit TempK Sal
    * (exp ((36 - 0.2 * (TempK - 273.15)) * Pbar / (RGasConstant * TempK))
       * exp ((33.3 - 0.22 * (TempK - 273.15)) * Pbar
              / (RGasConstant * TempK)))
  /\ k_aragonite_GEOSECS RGasConstant TempK Sal Pbar
     = 1.45 * k_calcite_I75_fit TempK Sal
       * exp ((69.3 - 0.42 * (TempK - 273.15)) * Pbar
              / (RGasConstant * TempK)).
Proof.
  intros HR HT HS. split.
  - unfold k_aragonite_GEOSECS, k_calcite_I75, convert.TempK2C. cbv zeta.
    ring.
  - apply k_aragonite_GEOSECS_exponents.
Qed.

Lemma k_aragonite_GEOSECS_both_corrections_witness :
  k_aragonite_GEOSECS 83.1451 275.15 35 400
  = 1.45 * k_calcite_I75_fit 275.15 35
    * exp ((69.3 - 0.42 * (275.15 - 273.15)) * 400 / (83.1451 * 275.15)).
Proof.
  assert (0 < 83.1451) as HR by lra.
  assert (0 < 275.15) as HT by lra.
  assert (0 < 35) as HS by lra.
  exact (proj2 (k_aragonite_GEOSECS_both_corrections 83.1451 275.15 35 400
                  HR HT HS)).
Defined.

(** X9. Over the reals, for Sal between 30 and 40, TempK between 270 and
    320, Pbar between 0 and 1200 and a gas constant between 80 and 90, the
    ICHP73 fit is strictly positive, and so are [k_calcite_I75] and
    [k_aragonite_GEOSECS]: on open-ocean salinities the GEOSECS branch meets
    the Ksp > 0 precondition of the division. *)
Theorem GEOSECS_constants_positive_on_ocean_salinity
  (RGasConstant TempK Sal Pbar : R) :
  80 <= RGasConstant <= 90 -> 270 <= TempK <= 320 -> 30 <= Sal <= 40 ->
  0 <= Pbar <= 1200 ->
  0 < k_calcite_I75_fit TempK Sal
  /\ 0 < k_calcite_I75 RGasConstant TempK Sal Pbar
  /\ 0 < k_aragonite_GEOSECS RGasConstant TempK Sal Pbar.
Proof.
  intros HR HT HS HP.
  assert (0 < k_calcite_I75_fit TempK Sal) as Hfit
    by (apply I75_fit_pos_ocean; [lra|exact HS]).
  split; [exact Hfit|]. split.
  - apply k_calcite_I75_pos; exact Hfit.
  - apply k_aragonite_GEOSECS_pos; exact Hfit.
Qed.

Lemma GEOSECS_constants_positive_on_ocean_salinity_witness :
  0 < k_calcite_I75 83.1451 275.15 34.7 400.
Proof.
  assert (80 <= 83.1451 <= 90) as HR by lra.
  assert (270 <= 275.15 <= 320) as HT by lra.
  assert (30 <= 34.7 <= 40) as HS by lra.
  assert (0 <= 400 <= 1200) as HP by lra.
  exact (proj1 (proj2 (GEOSECS_constants_positive_on_ocean_salinity
                         83.1451 275.15 34.7 400 HR HT HS HP))).
Defined.

(** X10. Over the reals, on a sample whose selector is 6 or 7, with Sal
    between 30 and 40, TempK between 270 and 320, Pbar between 0 and 1200
    and a gas constant between 80 and 90, the aragonite constant is at least
    1.45 times the (positive) calcite constant; with CARB and TCa between
    1e-9 and 1 the aragonite saturation state is positive and 1.4 times it
    is still below the calcite saturation state. *)
Theorem GEOSECS_aragonite_more_soluble (RGasConstant : R)
  (Sal TempK Pbar CARB TCa : list R) (WhichKs : list Z) (K1 K2 : list R)
  (i : nat) (t s p c ca : R) (w : Z) :
  nth_error TempK i = Some t -> nth_error Sal i = Some s ->
  nth_error Pbar i = Some p -> nth_error WhichKs i = Some w ->
  nth_error CARB i = Some c -> nth_error TCa i = Some ca ->
  (w = 6 \/ w = 7)%Z ->
  80 <= RGasConstant <= 90 -> 270 <= t <= 320 -> 30 <= s <= 40 ->
  0 <= p <= 1200 ->
  0.000000001 <= c <= 1 -> 0.000000001 <= ca <= 1 ->
  0 < k_calcite_I75 RGasConstant t s p
  /\ 1.45 * k_calcite_I75 RGasConstant t s p
     <= k_aragonite_GEOSECS RGasConstant t s p
  /\ nth_error (calcite RGasConstant Sal TempK Pbar CARB TCa WhichKs K1 K2) i
     = Some (c * ca / k_calcite_I75 RGasConstant t s p)
  /\ nth_error (aragonite RGasConstant Sal TempK Pbar CARB TCa WhichKs K1 K2) i
     = Some (c * ca / k_aragonite_GEOSECS RGasConstant t s p)
  /\ 0 < c * ca / k_aragonite_GEOSECS RGasConstant t s p
  /\ 1.4 * (c * ca / k_aragonite_GEOSECS RGasConstant t s p)
     < c * ca / k_calcite_I75 RGasConstant t s p.
Proof.
  intros Ht Hs Hp Hw Hc Hca H67 HR Htrange Hsrange Hprange Hcrange Hcarange.
  apply GEOSECS_true in H67.
  assert (0 < k_calcite_I75_fit t s) as Hfit
    by (apply I75_fit_pos_ocean; lra).
  pose proof (k_calcite_I75_pos RGasConstant t s p Hfit) as HKCa.
  pose proof (k_aragonite_GEOSECS_pos RGasConstant t s p Hfit) as HKAr.
  assert (1.45 * k_calcite_I75 RGasConstant t s p
          <= k_aragonite_GEOSECS RGasConstant t s p) as Hle.
  { unfold k_aragonite_GEOSECS, convert.TempK2C. cbv zeta.
    set (KCa := k_calcite_I75 RGasConstant t s p) in *.
    assert (1 <= exp ((33.3 - 0.22 * (t - 273.15)) * p / (RGasConstant * t)))
      as He by (apply exp_ge_1, exponent_nonneg; lra).
    assert (0 <= 1.45 * KCa * (exp ((33.3 - 0.22 * (t - 273.15)) * p
                                     / (RGasConstant * t)) - 1)) as Hprod
      by (apply Rmult_le_pos; lra).
    lra. }
  assert (0 < c * ca) as Hx by (apply Rmult_lt_0_compat; lra).
  set (KCa := k_calcite_I75 RGasConstant t s p) in *.
  set (KAr := k_aragonite_GEOSECS RGasConstant t s p) in *.
  assert (KCa < KAr) as Hlt by lra.
  assert (0 < c * ca / KAr) as HOAr by (apply Rdiv_lt_0_compat; assumption).
  assert (0 < c * ca / KCa) as HOCa by (apply Rdiv_lt_0_compat; assumption).
  assert (/ KAr <= / (1.45 * KCa)) as Hinv
    by (apply Rinv_le_contravar; lra).
  assert (c * ca / KAr <= c * ca / KCa / 1.45) as Hratio.
  { replace (c * ca / KCa / 1.45) with (c * ca * / (1.45 * KCa))
      by (field; lra).
    unfold Rdiv. apply Rmult_le_compat_l; lra. }
  split; [exact HKCa|]. split; [exact Hle|].
  split.
  { rewrite (calcite_at RGasConstant _ _ _ _ _ _ K1 K2 _ _ _ _ _ _ _
               Ht Hs Hp Hw Hc Hca), H67. reflexivity. }
  split.
  { rewrite (aragonite_at RGasConstant _ _ _ _ _ _ K1 K2 _ _ _ _ _ _ _
               Ht Hs Hp Hw Hc Hca), H67. reflexivity. }
  split; [exact HOAr|lra].
Qed.

Lemma GEOSECS_aragonite_more_soluble_witness :
  1.45 * k_calcite_I75 83.1451 275.15 35 400
  <= k_aragonite_GEOSECS 83.1451 275.15 35 400.
Proof.
  assert (80 <= 83.1451 <= 90) as HR by lra.
  assert (270 <= 275.15 <= 320) as HT by lra.
  assert (30 <= 35 <= 40) as HS by lra.
  assert (0 <= 400 <= 1200) as HP by lra.
  assert (0.000000001 <= 90e-6 <= 1) as HC by lra.
  assert (0.000000001 <= 0.0101 <= 1) as HCa by lra.
  assert ((7 = 6 \/ 7 = 7)%Z) as Hw by (right; reflexivity).
  exact (proj1 (proj2 (GEOSECS_aragonite_more_soluble 83.1451
                  [34; 35] [298.15; 275.15] [0; 400] [200e-6; 90e-6]
                  [0.0102; 0.0101] [1; 7]%Z [] []
                  1 275.15 35 400 90e-6 0.0101 7%Z
                  eq_refl eq_refl eq_refl eq_refl eq_refl eq_refl
                  Hw HR HT HS HP HC HCa))).
Defined.

(** X11. Over the reals, for Sal between 30 and 40, TempK between 270 and
    320, a gas constant between 80 and 90 and pressures between 0 and 1200
    bar that are at least 1 bar apart, the GEOSECS constants are strictly
    larger at the higher pressure. *)
Theorem GEOSECS_increases_with_pressure (RGasConstant TempK Sal P1 P2 : R) :
  80 <= RGasConstant <= 90 -> 270 <= TempK <= 320 -> 30 <= Sal <= 40 ->
  0 <= P1 -> P1 + 1 <= P2 -> P2 <= 1200 ->
  k_calcite_I75 RGasConstant TempK Sal P1
  < k_calcite_I75 RGasConstant TempK Sal P2
  /\ k_aragonite_GEOSECS RGasConstant TempK Sal P1
     < k_aragonite_GEOSECS RGasConstant TempK Sal P2.
Proof.
  intros HR HT HS HP1 HP12 HP2.
  assert (0 < k_calcite_I75_fit TempK Sal) as Hfit
    by (apply I75_fit_pos_ocean; lra).
  split.
  - unfold k_calcite_I75, convert.TempK2C. cbv zeta.
    apply Rmult_lt_compat_l; [exact Hfit|].
    apply exp_increasing, exponent_increasing; lra.
  - rewrite !k_aragonite_GEOSECS_exponents.
    apply Rmult_lt_compat_l; [lra|].
    apply exp_increasing, exponent_increasing; lra.
Qed.

Lemma GEOSECS_increases_with_pressure_witness :
  k_calcite_I75 83.1451 275.15 35 0 < k_calcite_I75 83.1451 275.15 35 400.
Proof.
  assert (80 <= 83.1451 <= 90) as HR by lra.
  assert (270 <= 275.15 <= 320) as HT by lra.
  assert (30 <= 35 <= 40) as HS by lra.
  assert (0 <= 0) as HP1 by lra.
  assert (0 + 1 <= 400) as HP12 by lra.
  assert (400 <= 1200) as HP2 by lra.
  exact (proj1 (GEOSECS_increases_with_pressure 83.1451 275.15 35 0 400
                  HR HT HS HP1 HP12 HP2)).
Defined.
